(** * The trade-recommendation evaluator of plugin-sui

    A shallow embedding of
    [packages/plugin-sui/src/evaluators/tradeEvaluator.ts]:
    [formatRecommendations], the evaluator's [handler] and its [validate]
    operation, together with the fragment of JavaScript they run on
    (UTF-16 strings and [trim], loosely typed values and truthiness,
    property reads that can raise [TypeError], arrays that are mutated in
    place), followed by the properties of the extraction pipeline. *)

From Stdlib Require Import NArith String Ascii List Bool Lia.
From Stdlib Require Import Floats.SpecFloat.
From stdpp Require Import gmap list.

Set Warnings "-register-all".
Local Open Scope N_scope.
Local Open Scope list_scope.

(** ** JavaScript strings

    A JavaScript string is a sequence of UTF-16 code units; [length]
    counts code units and [===] compares them one by one. *)

Abbreviation JsString := (list N).

(** An ASCII literal of this development, as a JavaScript string. *)
Definition js (s : string) : JsString :=
  map N_of_ascii (list_ascii_of_string s).

(** [WhiteSpace] and [LineTerminator] of ECMAScript, the code points
    that [String.prototype.trim] strips.  All of them lie in the basic
    multilingual plane, so a test per code unit is exact. *)
Definition isWhiteSpace (c : N) : bool :=
  (c =? 9) || (c =? 10) || (c =? 11) || (c =? 12) || (c =? 13)
  || (c =? 32) || (c =? 160) || (c =? 5760)
  || ((8192 <=? c) && (c <=? 8202))
  || (c =? 8232) || (c =? 8233) || (c =? 8239) || (c =? 8287)
  || (c =? 12288) || (c =? 65279).

Fixpoint dropWhile {A : Type} (p : A -> bool) (l : list A) : list A :=
  match l with
  | [] => []
  | x :: l' => if p x then dropWhile p l' else l
  end.

Definition trimStart (s : JsString) : JsString := dropWhile isWhiteSpace s.

Definition trimEnd (s : JsString) : JsString :=
  rev (dropWhile isWhiteSpace (rev s)).

(** [String.prototype.trim]. *)
Definition trim (s : JsString) : JsString := trimEnd (trimStart s).

(** [Array.prototype.join] on an array of strings. *)
Fixpoint Array_join (sep : JsString) (l : list JsString) : JsString :=
  match l with
  | [] => []
  | [x] => x
  | x :: rest => x ++ sep ++ Array_join sep rest
  end.

(** ** JavaScript values

    What [JSON.parse] can produce, and [undefined] for what is absent.
    Numbers are IEEE 754 doubles.  There are no functions among these
    values: nothing that comes out of the generative backend is
    callable. *)

Inductive JsValue : Type :=
| JUndefined
| JNull
| JBoolean (b : bool)
| JNumber (x : spec_float)
| JString (s : JsString)
| JArray (elems : list JsValue)
| JObject (props : gmap JsString JsValue).

(** [ToBoolean]: the falsy values are [undefined], [null], [false],
    [+0], [-0], [NaN] and the empty string. *)
Definition toBoolean (v : JsValue) : bool :=
  match v with
  | JUndefined | JNull => false
  | JBoolean b => b
  | JNumber (S754_zero _) | JNumber S754_nan => false
  | JNumber _ => true
  | JString [] => false
  | JString (_ :: _) => true
  | JArray _ | JObject _ => true
  end.

(** Completions: code either returns a value or throws. *)
Inductive JsError : Type :=
| TypeError (message : string).

Inductive Completion (A : Type) : Type :=
| Normal (a : A)
| Throw (e : JsError).
Arguments Normal {A} a.
Arguments Throw {A} e.

Definition cbind {A B : Type} (c : Completion A) (k : A -> Completion B)
  : Completion B :=
  match c with
  | Normal a => k a
  | Throw e => Throw e
  end.

#[global] Instance Completion_ret : MRet Completion := @Normal.
#[global] Instance Completion_bind : MBind Completion :=
  fun A B k c => cbind c k.

(** The fields of a candidate that the evaluator reads.  None of them is
    a built-in property of [Object], [Array], [String], [Number] or
    [Boolean], so reading one from a value that is not a plain object
    gives [undefined]. *)
Inductive Field : Type :=
| alreadyKnown | ticker | contractAddress | recommender | conviction.

Definition fieldName (f : Field) : JsString :=
  match f with
  | alreadyKnown => js "alreadyKnown"
  | ticker => js "ticker"
  | contractAddress => js "contractAddress"
  | recommender => js "recommender"
  | conviction => js "conviction"
  end.

(** [rec.f]: reading a property of [null] or [undefined] throws. *)
Definition getField (rec : JsValue) (f : Field) : Completion JsValue :=
  match rec with
  | JUndefined | JNull =>
      Throw (TypeError "Cannot read properties of null or undefined")
  | JObject props => Normal (default JUndefined (props !! fieldName f))
  | JBoolean _ | JNumber _ | JString _ | JArray _ => Normal JUndefined
  end.

(** [v.trim()]: only strings have the method. *)
Definition callTrim (v : JsValue) : Completion JsValue :=
  match v with
  | JString s => Normal (JString (trim s))
  | _ => Throw (TypeError "trim is not a function")
  end.

(** [v !== str] for a string literal [str]: strict inequality never
    converts, so it holds unless [v] is that very string. *)
Definition strictNotEqualString (v : JsValue) (str : JsString) : bool :=
  match v with
  | JString s => negb (bool_decide (s = str))
  | _ => true
  end.

(** [a && b] and [a || b] return one of their operands and evaluate the
    second one only when needed. *)
Definition jsAnd (a : JsValue) (b : Completion JsValue) : Completion JsValue :=
  if toBoolean a then b else Normal a.

Definition jsOr (a : JsValue) (b : Completion JsValue) : Completion JsValue :=
  if toBoolean a then Normal a else b.

(** [Array.prototype.filter]: the callback runs on the elements in index
    order, an element is kept when the callback's result is truthy, and
    the first exception ends the traversal. *)
Fixpoint Array_filter (callback : JsValue -> Completion JsValue)
    (l : list JsValue) : Completion (list JsValue) :=
  match l with
  | [] => Normal []
  | x :: rest =>
      keep ← callback x;
      kept ← Array_filter callback rest;
      Normal (if toBoolean keep then x :: kept else kept)
  end.

(** ** The validation filter of [handler] (lines 138-147)

    The arrow function passed to [recommendations.filter]. *)
Definition recommendationFilter (rec : JsValue) : Completion JsValue :=
  known ← getField rec alreadyKnown;
  jsAnd (JBoolean (negb (toBoolean known)))
    (t ← getField rec ticker;
     tc ← jsOr t (getField rec contractAddress);
     jsAnd tc
       (r ← getField rec recommender;
        jsAnd r
          (c ← getField rec conviction;
           jsAnd c
             (r' ← getField rec recommender;
              trimmed ← callTrim r';
              Normal (JBoolean (strictNotEqualString trimmed [])))))).

Definition filteredRecommendations (recommendations : list JsValue)
  : Completion (list JsValue) :=
  Array_filter recommendationFilter recommendations.

(** ** Memories, conversation state and the collaborators

    The types of [@elizaos/core] that the evaluator touches, with the
    fields it reads.  [content.content] is where a stored recommendation
    keeps its free text.  The field is not typed: it can be a string,
    absent, [null], a boolean, or a number, an array or an object; the
    last three are given by the string that [ToString] makes of them,
    which is all that the evaluator observes of the field. *)

Abbreviation UUID := (list N).

Module Content.
Inductive value : Type :=
| Text (s : JsString)
| Undefined
| Null
| Boolean (b : bool)
| Printed (printed : JsString).

Record t : Type := { text : JsString; content : value }.
End Content.

Module Memory.
Record t : Type :=
  { userId : UUID; agentId : UUID; roomId : UUID; content : Content.t }.
End Memory.

Module State.
Record t : Type :=
  { agentId : UUID; roomId : UUID; values : gmap JsString JsValue }.

(** The object spread [{ ...state, key: value }]. *)
Definition spread (state : t) (key : JsString) (value : JsValue) : t :=
  {| agentId := agentId state;
     roomId := roomId state;
     values := <[key := value]> (values state) |}.
End State.

Inductive ModelClass : Type := SMALL | MEDIUM | LARGE | EMBEDDING | IMAGE.

Inductive LogLevel : Type := LOG | INFO | WARN.

(** What the evaluator asks of its collaborators, with the arguments of
    each request. *)
Inductive Event : Type :=
| Call_elizaLogger (level : LogLevel) (message : string)
| Call_composeState (message : Memory.t)
| Call_getSetting (key : JsString)
| Call_generateTrueOrFalse (context : JsString) (modelClass : ModelClass)
| Call_getMemories (tableName : JsString) (roomId : UUID) (count : N)
| Call_generateObjectArray (context : JsString) (modelClass : ModelClass).

(** The collaborators answer as functions of the request: the state
    composer and the settings of the runtime, the two operations of the
    generative backend, and the memory store.  A setting is a string or
    [null]; [generateObjectArray] answers [None] when it has no array to
    give ([null]).  Each call is modelled by the value it resolves to:
    [handler] catches nothing, so a call that rejects ends the run with
    that failure, which is not part of this model. *)
Record IAgentRuntime : Type :=
  { composeState : Memory.t -> State.t;
    getSetting : JsString -> option JsString;
    generateTrueOrFalse : JsString -> ModelClass -> bool;
    generateObjectArray : JsString -> ModelClass -> option (list JsValue);
    getMemories : JsString -> UUID -> N -> list Memory.t }.

Definition ofSetting (setting : option JsString) : JsValue :=
  match setting with
  | Some s => JString s
  | None => JNull
  end.

(** ** The store of arrays and the monad of the evaluator

    Arrays of memories are objects: they live in a heap, a variable
    holds a reference, and [reverse] updates the array it is called on.
    A run also records the requests made to the collaborators, in
    order. *)

Abbreviation Ref := nat.

Record World : Type :=
  { heap : gmap Ref (list Memory.t); calls : list Event }.

Definition M (A : Type) : Type := World -> Completion A * World.

Definition M_ret {A : Type} (a : A) : M A := fun w => (Normal a, w).

Definition M_bind {A B : Type} (m : M A) (k : A -> M B) : M B :=
  fun w =>
    match m w with
    | (Normal a, w') => k a w'
    | (Throw e, w') => (Throw e, w')
    end.

#[global] Instance M_MRet : MRet M := @M_ret.
#[global] Instance M_MBind : MBind M := fun A B k m => M_bind m k.

Definition liftCompletion {A : Type} (c : Completion A) : M A :=
  fun w => (c, w).

(** A request to a collaborator: it is recorded and answered. *)
Definition request {A : Type} (e : Event) (answer : A) : M A :=
  fun w => (Normal answer, {| heap := heap w; calls := calls w ++ [e] |}).

(** A new array object holding [l], at a reference not in use. *)
Definition allocate (l : list Memory.t) : M Ref :=
  fun w =>
    let r := fresh (dom (heap w)) in
    (Normal r, {| heap := <[r := l]> (heap w); calls := calls w |}).

(** [Array.prototype.reverse] reverses the array in place and returns
    the same array. *)
Definition Array_reverse (a : Ref) : M Ref :=
  fun w => (Normal a, {| heap := alter (@rev Memory.t) a (heap w);
                         calls := calls w |}).

(** [Array.prototype.map] reads the array and builds a new one.  A
    reference held by the program always points to an array; the total
    lookup gives the empty array elsewhere. *)
Definition Array_map {B : Type} (f : Memory.t -> B) (a : Ref) : M (list B) :=
  fun w => (Normal (map f (heap w !!! a)), w).

(** Running from a heap, with no request made yet: the completion, the
    requests made, and the heap left behind. *)
Definition result {A : Type} (m : M A) (h : gmap Ref (list Memory.t))
  : Completion A :=
  fst (m {| heap := h; calls := [] |}).

Definition requests {A : Type} (m : M A) (h : gmap Ref (list Memory.t))
  : list Event :=
  calls (snd (m {| heap := h; calls := [] |})).

Definition heapAfter {A : Type} (m : M A) (h : gmap Ref (list Memory.t))
  : gmap Ref (list Memory.t) :=
  heap (snd (m {| heap := h; calls := [] |})).

(** ** [formatRecommendations] (lines 30-36) *)

(** The template literal [`${(rec.content as Content)?.content}`], that
    is [ToString] of the field: a string as it is, the other values
    spelled out. *)
Definition contentString (rec : Memory.t) : JsString :=
  match Content.content (Memory.content rec) with
  | Content.Text s => s
  | Content.Undefined => js "undefined"
  | Content.Null => js "null"
  | Content.Boolean true => js "true"
  | Content.Boolean false => js "false"
  | Content.Printed printed => printed
  end.

Definition formatRecommendations (recommendations : Ref) : M JsString :=
  reversed ← Array_reverse recommendations;
  messageStrings ← Array_map contentString reversed;
  let finalMessageStrings := Array_join [10] messageStrings in
  mret finalMessageStrings.

(** ** The evaluator: [handler] (lines 76-150) and [validate] (160-170) *)

Definition elizaLogger (level : LogLevel) (message : string) : M unit :=
  request (Call_elizaLogger level message) tt.

Section Evaluator.

(** Template rendering of [@elizaos/core], and the two prompt texts.
    The array that [getMemories] resolves to is taken to be a new
    object: the answer of the store is recorded, then allocated.  A
    store that resolves to an array it keeps would find that array
    reversed by [formatRecommendations]; no property below is about the
    arrays of the store. *)
Variable composeContext : State.t -> JsString -> JsString.
Variable shouldProcessTemplate : JsString.
Variable recommendationTemplate : JsString.

Definition handler (runtime : IAgentRuntime) (message : Memory.t)
  : M (list JsValue) :=
  elizaLogger LOG "Evaluating for trust";;
  state ← request (Call_composeState message) (composeState runtime message);
  postgres ← request (Call_getSetting (js "POSTGRES_URL"))
               (getSetting runtime (js "POSTGRES_URL"));
  if toBoolean (ofSetting postgres) then
    elizaLogger WARN "skipping trust evaluator because db is postgres";;
    mret []
  else
    let roomId := State.roomId state in
    let shouldProcessContext := composeContext state shouldProcessTemplate in
    shouldProcess ← request (Call_generateTrueOrFalse shouldProcessContext SMALL)
                      (generateTrueOrFalse runtime shouldProcessContext SMALL);
    if negb shouldProcess then
      elizaLogger LOG "Skipping process";;
      mret []
    else
      elizaLogger LOG "Processing recommendations";;
      found ← request (Call_getMemories (js "recommendations") roomId 20)
                (getMemories runtime (js "recommendations") roomId 20);
      recentRecommendations ← allocate found;
      formatted ← formatRecommendations recentRecommendations;
      let context :=
        composeContext
          (State.spread state (js "recentRecommendations") (JString formatted))
          recommendationTemplate in
      recommendations ← request (Call_generateObjectArray context LARGE)
                          (generateObjectArray runtime context LARGE);
      elizaLogger LOG "recommendations";;
      match recommendations with
      | None => mret []
      | Some recs => liftCompletion (filteredRecommendations recs)
      end.

(** The prompt the Gate is asked about, the memories the store gives for
    the room, and the prompt the Extractor gets, for a message. *)
Definition gatePrompt (runtime : IAgentRuntime) (message : Memory.t)
  : JsString :=
  composeContext (composeState runtime message) shouldProcessTemplate.

Definition priorRecommendations (runtime : IAgentRuntime) (message : Memory.t)
  : list Memory.t :=
  getMemories runtime (js "recommendations")
    (State.roomId (composeState runtime message)) 20.

Definition extractionPrompt (runtime : IAgentRuntime) (message : Memory.t)
  : JsString :=
  composeContext
    (State.spread (composeState runtime message) (js "recentRecommendations")
       (JString
          (Array_join [10]
             (map contentString (rev (priorRecommendations runtime message))))))
    recommendationTemplate.

End Evaluator.

Definition validate (runtime : IAgentRuntime) (message : Memory.t) : M bool :=
  elizaLogger INFO "====> EVALUATING SUI TRADE EVALUATOR";;
  if (length (Content.text (Memory.content message)) <? 5)%nat then
    mret false
  else
    mret (negb (bool_decide (Memory.userId message = Memory.agentId message))).

(** ** Notions used to state the properties *)

(** Building candidates and memories for the examples. *)
Definition str (s : string) : JsValue := JString (js s).

Definition properties (l : list (string * JsValue)) : gmap JsString JsValue :=
  list_to_map (map (fun p => (js (fst p), snd p)) l).

Definition object (l : list (string * JsValue)) : JsValue :=
  JObject (properties l).

(** The value of a candidate's field; absent on what is not an object. *)
Definition field (rec : JsValue) (f : Field) : JsValue :=
  match rec with
  | JObject props => default JUndefined (props !! fieldName f)
  | _ => JUndefined
  end.

(** A field is present when it is there and is not [null]; it is
    non-empty when it is not the empty string. *)
Definition present (v : JsValue) : Prop := v ≠ JUndefined ∧ v ≠ JNull.

Definition nonEmpty (v : JsValue) : Prop := v ≠ JString [].

(** The four predicates of the validation filter, in the words of the
    specification. *)
Definition notAlreadyKnown (rec : JsValue) : Prop :=
  toBoolean (field rec alreadyKnown) = false.

Definition hasIdentifier (rec : JsValue) : Prop :=
  (present (field rec ticker) ∧ nonEmpty (field rec ticker))
  ∨ (present (field rec contractAddress) ∧ nonEmpty (field rec contractAddress)).

Definition hasRecommender (rec : JsValue) : Prop :=
  ∃ s, field rec recommender = JString s ∧ trim s ≠ [].

Definition hasConviction (rec : JsValue) : Prop :=
  present (field rec conviction).

(** The fourth predicate as the code tests it. *)
Definition hasNonEmptyConviction (rec : JsValue) : Prop :=
  present (field rec conviction) ∧ nonEmpty (field rec conviction).

(** The candidate schema: a record whose ticker, contract address,
    recommender and conviction are each a string or absent;
    [alreadyKnown] and every other property are unconstrained. *)
Definition textOrAbsent (v : JsValue) : Prop :=
  match v with
  | JString _ | JNull | JUndefined => True
  | _ => False
  end.

Definition candidateRecord (rec : JsValue) : Prop :=
  (∃ props, rec = JObject props)
  ∧ textOrAbsent (field rec ticker)
  ∧ textOrAbsent (field rec contractAddress)
  ∧ textOrAbsent (field rec recommender)
  ∧ textOrAbsent (field rec conviction).

(** The filter's decision on one candidate. *)
Definition retained (rec : JsValue) : bool :=
  match recommendationFilter rec with
  | Normal v => toBoolean v
  | Throw _ => false
  end.

(** The callback on the values of the five fields. *)
Definition filterOn (known t c r cv : JsValue) : Completion JsValue :=
  jsAnd (JBoolean (negb (toBoolean known)))
    (tc ← jsOr t (Normal c);
     jsAnd tc
       (jsAnd r
          (jsAnd cv
             (trimmed ← callTrim r;
              Normal (JBoolean (strictNotEqualString trimmed [])))))).

(** Whether [r.trim()] is a non-empty string, [false] on a value without
    the method. *)
Definition trimsToText (r : JsValue) : bool :=
  match r with
  | JString s => strictNotEqualString (JString (trim s)) []
  | _ => false
  end.

(** The incompatible-storage-backend flag. *)
Definition postgresConfigured (runtime : IAgentRuntime) : bool :=
  toBoolean (ofSetting (getSetting runtime (js "POSTGRES_URL"))).

Definition isGateCall (e : Event) : bool :=
  match e with Call_generateTrueOrFalse _ _ => true | _ => false end.

Definition isExtractorCall (e : Event) : bool :=
  match e with Call_generateObjectArray _ _ => true | _ => false end.

Definition isStoreCall (e : Event) : bool :=
  match e with Call_getMemories _ _ _ => true | _ => false end.

(** ** Examples of candidates *)

Definition roulette : JsValue :=
  object [("recommender", str "user1"); ("ticker", str "ROULETTE");
          ("contractAddress", str "48vV5y4DRH1Adr1bpvSgFWYCjLLPtHYBqUSwNc2cmCK2");
          ("type", str "buy"); ("conviction", str "high");
          ("alreadyKnown", JBoolean false)]%string.

Definition samoyedBuy : JsValue :=
  object [("recommender", str "user2"); ("ticker", str "SAMOYED");
          ("contractAddress", str "5TQwHyZbedaH4Pcthj1Hxf5GqcigL6qWuB7YEsBtqvhr");
          ("type", str "buy"); ("conviction", str "medium");
          ("alreadyKnown", JBoolean false)]%string.

Definition samoyedDontBuy : JsValue :=
  object [("recommender", str "user1"); ("ticker", str "SAMOYED");
          ("contractAddress", str "5TQwHyZbedaH4Pcthj1Hxf5GqcigL6qWuB7YEsBtqvhr");
          ("type", str "dont_buy"); ("conviction", str "high");
          ("alreadyKnown", JBoolean false)]%string.

(** A candidate whose conviction is there, as the empty string. *)
Definition emptyConviction : JsValue :=
  object [("recommender", str "user1"); ("ticker", str "ROULETTE");
          ("type", str "buy"); ("conviction", JString []);
          ("alreadyKnown", JBoolean false)]%string.

Definition blankRecommender : JsValue :=
  object [("recommender", str "   "); ("ticker", str "ROULETTE");
          ("type", str "buy"); ("conviction", str "high");
          ("alreadyKnown", JBoolean false)]%string.

Definition noIdentifier : JsValue :=
  object [("recommender", str "user1"); ("ticker", JNull);
          ("type", str "buy"); ("conviction", str "high");
          ("alreadyKnown", JBoolean false)]%string.

(** A candidate of an unknown type whose conviction is there, as the
    empty string. *)
Definition emptyConvictionHodl : JsValue :=
  object [("recommender", str "user1"); ("ticker", str "ROULETTE");
          ("type", str "hodl"); ("conviction", JString []);
          ("alreadyKnown", JBoolean false)]%string.

(** A candidate without a type. *)
Definition untyped : gmap JsString JsValue :=
  properties [("recommender", str "user1"); ("ticker", str "ROULETTE");
              ("conviction", str "high"); ("alreadyKnown", JBoolean false)]%string.

(** ** Examples of memories and collaborators *)

Definition memory (user agent text : string) (recorded : option string)
  : Memory.t :=
  {| Memory.userId := js user;
     Memory.agentId := js agent;
     Memory.roomId := js "room-1";
     Memory.content :=
       {| Content.text := js text;
          Content.content :=
            match recorded with
            | Some s => Content.Text (js s)
            | None => Content.Undefined
            end |} |}.

Definition recA : Memory.t :=
  memory "agent" "agent" "stored" (Some "user1 said buy ROULETTE")%string.
Definition recB : Memory.t :=
  memory "agent" "agent" "stored" (Some "user2 said sell SAMOYED")%string.
Definition recC : Memory.t :=
  memory "agent" "agent" "stored" (Some "user1 said buy PIXELAPE")%string.

Definition incoming : Memory.t :=
  memory "user1" "agent" "ROULETTE is going to send it soon" None.
Definition shortText : Memory.t := memory "user1" "agent" "gm" None.
Definition ownMessage : Memory.t :=
  memory "agent" "agent" "I bought ROULETTE" None.

(** A runtime over a store that holds [recA; recB], with the answers of
    the flag, the Gate and the Extractor as given. *)
Definition runtimeWith (postgres : option JsString) (gate : bool)
    (extracted : option (list JsValue)) : IAgentRuntime :=
  {| composeState := fun m =>
       {| State.agentId := Memory.agentId m;
          State.roomId := Memory.roomId m;
          State.values := ∅ |};
     getSetting := fun _ => postgres;
     generateTrueOrFalse := fun _ _ => gate;
     generateObjectArray := fun _ _ => extracted;
     getMemories := fun _ _ _ => [recA; recB] |}.

Definition gateTemplate : JsString := js "Should the messages be processed? ".
Definition extractTemplate : JsString := js "Known recommendations: ".

(** A template renderer for the examples: the template, then the known
    recommendations when the state has them. *)
Definition render (state : State.t) (template : JsString) : JsString :=
  template ++
  match State.values state !! js "recentRecommendations" with
  | Some (JString s) => s
  | _ => []
  end.

(** ** Notions for the further properties *)

(** Whether the callback of the filter throws on a candidate. *)
Definition raises (rec : JsValue) : bool :=
  match recommendationFilter rec with
  | Throw _ => true
  | Normal _ => false
  end.

Definition isNullish (v : JsValue) : bool :=
  match v with
  | JUndefined | JNull => true
  | _ => false
  end.

Definition isString (v : JsValue) : bool :=
  match v with
  | JString _ => true
  | _ => false
  end.

(** A string with at least one code unit that is not whitespace. *)
Definition hasText (v : JsValue) : bool :=
  match v with
  | JString s => existsb (fun c => negb (isWhiteSpace c)) s
  | _ => false
  end.

Definition isComposeCall (e : Event) : bool :=
  match e with Call_composeState _ => true | _ => false end.

Definition isSettingCall (e : Event) : bool :=
  match e with Call_getSetting _ => true | _ => false end.

(** A candidate whose recommender is the number 7, and the same one
    marked as already known. *)
Definition numericRecommender : JsValue :=
  JObject (<[js "recommender" := JNumber (S754_finite false 7 0)]> untyped).

Definition knownNumericRecommender : JsValue :=
  JObject (<[js "alreadyKnown" := JBoolean true]>
             (<[js "recommender" := JNumber (S754_finite false 7 0)]> untyped)).

(** ** Strings *)

Lemma dropWhile_all {A : Type} (p : A -> bool) (l : list A) :
  forallb p l = true → dropWhile p l = [].
Proof.
  induction l as [|x l IH]; simpl; [done|].
  intros [Hx Hl]%andb_true_iff. rewrite Hx. auto.
Qed.

Lemma trim_whitespace (s : JsString) :
  forallb isWhiteSpace s = true → trim s = [].
Proof.
  intros H. unfold trim, trimEnd, trimStart.
  rewrite (dropWhile_all _ _ H). reflexivity.
Qed.

Lemma trim_nil : trim [] = [].
Proof. reflexivity. Qed.

(** ** The callback of the filter *)

Lemma recommendationFilter_object (props : gmap JsString JsValue) :
  recommendationFilter (JObject props)
  = filterOn (field (JObject props) alreadyKnown)
      (field (JObject props) ticker)
      (field (JObject props) contractAddress)
      (field (JObject props) recommender)
      (field (JObject props) conviction).
Proof.
  unfold recommendationFilter, filterOn, jsAnd, jsOr; simpl.
  repeat (match goal with |- context [toBoolean ?v] =>
            destruct (toBoolean v) eqn:?; simpl end);
    try reflexivity; congruence.
Qed.

Lemma toBoolean_text (v : JsValue) :
  textOrAbsent v → (toBoolean v = true ↔ present v ∧ nonEmpty v).
Proof.
  unfold present, nonEmpty.
  destruct v as [| | | |[|c s]| |]; simpl; try tauto; intros _;
    split; try discriminate; try (intros [[? ?] ?]; congruence).
  intros _. repeat split; discriminate.
Qed.

Lemma filterOn_text (known t c r cv : JsValue) :
  textOrAbsent r →
  ∃ v, filterOn known t c r cv = Normal v
       ∧ toBoolean v =
           negb (toBoolean known) && (toBoolean t || toBoolean c)
           && toBoolean r && toBoolean cv
           && trimsToText r.
Proof.
  intros Hr. unfold filterOn, jsAnd, jsOr. simpl.
  destruct (toBoolean known) eqn:Hk; simpl; [eexists; split; [done|done]|].
  destruct (toBoolean t) eqn:Ht; simpl.
  - rewrite Ht.
    destruct (toBoolean r) eqn:Hb; simpl;
      [|eexists; split; [done|by rewrite Hb]].
    destruct (toBoolean cv) eqn:Hc; simpl;
      [|eexists; split; [done|by rewrite Hc]].
    destruct r; simpl in *; try done. eexists; split; reflexivity.
  - destruct (toBoolean c) eqn:Hcc; simpl;
      [|eexists; split; [done|by rewrite Hcc]].
    destruct (toBoolean r) eqn:Hb; simpl;
      [|eexists; split; [done|by rewrite Hb]].
    destruct (toBoolean cv) eqn:Hc; simpl;
      [|eexists; split; [done|by rewrite Hc]].
    destruct r; simpl in *; try done. eexists; split; reflexivity.
Qed.

Lemma hasRecommender_text (r : JsValue) :
  textOrAbsent r →
  (toBoolean r && trimsToText r = true ↔ ∃ s, r = JString s ∧ trim s ≠ []).
Proof.
  destruct r as [| | | |s| |]; simpl; try tauto; intros _.
  - split; [done|]. intros (s & Hs & _). discriminate.
  - split; [done|]. intros (s & Hs & _). discriminate.
  - split.
    + intros [_ H]%andb_true_iff. exists s. split; [done|].
      apply negb_true_iff, bool_decide_eq_false in H. done.
    + intros (s' & [= <-] & Hne). apply andb_true_iff. split.
      * destruct s; [by rewrite trim_nil in Hne|done].
      * apply negb_true_iff, bool_decide_eq_false. done.
Qed.

(** On a candidate of the schema the callback returns, and its result is
    truthy exactly when the four tests pass. *)
Lemma recommendationFilter_record (rec : JsValue) :
  candidateRecord rec →
  ∃ v, recommendationFilter rec = Normal v
       ∧ (toBoolean v = true
          ↔ notAlreadyKnown rec ∧ hasIdentifier rec ∧ hasRecommender rec
            ∧ hasNonEmptyConviction rec).
Proof.
  intros ([props ->] & Ht & Hc & Hr & Hcv).
  rewrite recommendationFilter_object.
  destruct (filterOn_text (field (JObject props) alreadyKnown)
              (field (JObject props) ticker)
              (field (JObject props) contractAddress)
              (field (JObject props) recommender)
              (field (JObject props) conviction) Hr) as (v & Hv & Hb).
  exists v. split; [done|]. rewrite Hb.
  unfold notAlreadyKnown, hasIdentifier, hasRecommender, hasNonEmptyConviction.
  rewrite <- (toBoolean_text _ Ht), <- (toBoolean_text _ Hc),
    <- (toBoolean_text _ Hcv), <- (hasRecommender_text _ Hr).
  rewrite !andb_true_iff, orb_true_iff, negb_true_iff. tauto.
Qed.

Lemma retained_record (rec : JsValue) :
  candidateRecord rec →
  (retained rec = true
   ↔ notAlreadyKnown rec ∧ hasIdentifier rec ∧ hasRecommender rec
     ∧ hasNonEmptyConviction rec).
Proof.
  intros H. destruct (recommendationFilter_record rec H) as (v & Hv & Hiff).
  unfold retained. rewrite Hv. done.
Qed.

(** ** [Array.prototype.filter] *)

Lemma Array_filter_Normal (callback : JsValue -> Completion JsValue)
    (l out : list JsValue) :
  Array_filter callback l = Normal out →
  out = List.filter
          (fun x => match callback x with
                    | Normal v => toBoolean v
                    | Throw _ => false
                    end) l.
Proof.
  revert out. induction l as [|x l IH]; simpl; intros out.
  - by intros [= <-].
  - unfold mbind, Completion_bind.
    destruct (callback x) as [v|e]; simpl; [|done].
    destruct (Array_filter callback l) as [kept|e]; simpl; [|done].
    intros [= <-]. rewrite <- (IH kept eq_refl). done.
Qed.

Lemma Array_filter_returns (callback : JsValue -> Completion JsValue)
    (l : list JsValue) :
  Forall (fun x => ∃ v, callback x = Normal v) l →
  ∃ out, Array_filter callback l = Normal out.
Proof.
  induction 1 as [|x l [v Hv] _ [out IH]]; simpl; [by eexists|].
  unfold mbind, Completion_bind. rewrite Hv; simpl. rewrite IH; simpl.
  by eexists.
Qed.

Lemma filter_sublist {A : Type} (p : A -> bool) (l : list A) :
  List.filter p l `sublist_of` l.
Proof.
  induction l as [|x l IH]; simpl; [constructor|].
  destruct (p x); by constructor.
Qed.

Lemma filteredRecommendations_records (recs : list JsValue) :
  Forall candidateRecord recs →
  filteredRecommendations recs = Normal (List.filter retained recs).
Proof.
  intros H. unfold filteredRecommendations.
  destruct (Array_filter_returns recommendationFilter recs) as [out Hout].
  - eapply Forall_impl; [exact H|]. intros rec Hrec.
    destruct (recommendationFilter_record rec Hrec) as (v & Hv & _). eauto.
  - rewrite Hout. f_equal. by apply Array_filter_Normal.
Qed.

Lemma filteredRecommendations_all_retained (recs : list JsValue) :
  Forall (fun rec => retained rec = true) recs →
  filteredRecommendations recs = Normal recs.
Proof.
  unfold filteredRecommendations.
  induction 1 as [|rec recs Hrec _ IH]; simpl; [done|].
  unfold mbind, Completion_bind. unfold retained in Hrec.
  destruct (recommendationFilter rec) as [v|e]; [simpl|done].
  rewrite IH; simpl. by rewrite Hrec.
Qed.

Lemma field_insert_type (props : gmap JsString JsValue) (v : JsValue)
    (f : Field) :
  field (JObject (<[js "type" := v]> props)) f = field (JObject props) f.
Proof.
  unfold field. rewrite lookup_insert_ne; [done|]. by destruct f.
Qed.

Lemma field_delete_type (props : gmap JsString JsValue) (f : Field) :
  field (JObject (delete (js "type") props)) f = field (JObject props) f.
Proof.
  unfold field. rewrite lookup_delete_ne; [done|]. by destruct f.
Qed.

Ltac candidate_record :=
  split; [eexists; reflexivity | repeat split; vm_compute; exact I].

(** ** The validation filter: which candidates are retained *)

(** C1, as the specification words it, fails on the code: a candidate of
    the schema whose conviction is present as the empty string satisfies
    the four stated predicates (not already known, a ticker, a
    recommender that is not blank, a conviction that is present), and
    the filter drops it. *)
Lemma empty_conviction_is_present_and_dropped :
  candidateRecord emptyConviction
  ∧ notAlreadyKnown emptyConviction
  ∧ hasIdentifier emptyConviction
  ∧ hasRecommender emptyConviction
  ∧ hasConviction emptyConviction
  ∧ filteredRecommendations [emptyConviction] = Normal [].
Proof.
  split; [candidate_record|].
  split; [vm_compute; reflexivity|].
  split; [left; repeat split; vm_compute; discriminate|].
  split; [exists (js "user1"); split; vm_compute; [reflexivity|discriminate]|].
  split; [split; vm_compute; discriminate|].
  vm_compute; reflexivity.
Qed.

(** C1 (amended): for every list of candidates of the schema (records
    whose ticker, contract address, recommender and conviction are each
    a string or absent), the filter returns without an exception, and
    it retains a candidate if and only if its alreadyKnown field is
    falsy, at least one of ticker and contractAddress is present and
    non-empty, its recommender is present and non-empty after trimming,
    and its conviction is present and non-empty.  In particular a
    recommender made of whitespace only is excluded, and so is a
    candidate with neither ticker nor contract address. *)
Theorem filter_retains_iff_four_predicates (recs : list JsValue) :
  Forall candidateRecord recs →
  ∃ out,
    filteredRecommendations recs = Normal out
    ∧ (∀ rec, rec ∈ out ↔
         rec ∈ recs ∧ notAlreadyKnown rec ∧ hasIdentifier rec
         ∧ hasRecommender rec ∧ hasNonEmptyConviction rec)
    ∧ (∀ rec s, rec ∈ recs → field rec recommender = JString s →
         forallb isWhiteSpace s = true → rec ∉ out)
    ∧ (∀ rec, rec ∈ recs → ¬ present (field rec ticker) →
         ¬ present (field rec contractAddress) → rec ∉ out).
Proof.
  intros Hrecs. exists (List.filter retained recs).
  split; [by apply filteredRecommendations_records|].
  assert (Hiff : ∀ rec, rec ∈ List.filter retained recs ↔
            rec ∈ recs ∧ notAlreadyKnown rec ∧ hasIdentifier rec
            ∧ hasRecommender rec ∧ hasNonEmptyConviction rec).
  { intros rec. rewrite !list_elem_of_In, filter_In, <- list_elem_of_In.
    split.
    - intros [Hin Hret]. split; [done|].
      apply retained_record; [|done].
      by apply (proj1 (Forall_forall _ _) Hrecs).
    - intros [Hin Hp]. split; [done|].
      apply retained_record; [|done].
      by apply (proj1 (Forall_forall _ _) Hrecs). }
  split; [exact Hiff|]. split.
  - intros rec s _ Hs Hws [_ (_ & _ & (s' & Hs' & Hne) & _)]%Hiff.
    rewrite Hs in Hs'. injection Hs' as <-.
    by rewrite trim_whitespace in Hne.
  - intros rec _ Ht Hc [_ (_ & [[? _]|[? _]] & _)]%Hiff; tauto.
Qed.

Lemma filter_retains_iff_four_predicates_witness :
  ∃ out,
    filteredRecommendations [roulette; emptyConviction; blankRecommender]
    = Normal out
    ∧ (∀ rec, rec ∈ out ↔
         rec ∈ [roulette; emptyConviction; blankRecommender]
         ∧ notAlreadyKnown rec ∧ hasIdentifier rec
         ∧ hasRecommender rec ∧ hasNonEmptyConviction rec)
    ∧ (∀ rec s, rec ∈ [roulette; emptyConviction; blankRecommender] →
         field rec recommender = JString s →
         forallb isWhiteSpace s = true → rec ∉ out)
    ∧ (∀ rec, rec ∈ [roulette; emptyConviction; blankRecommender] →
         ¬ present (field rec ticker) →
         ¬ present (field rec contractAddress) → rec ∉ out).
Proof.
  apply (filter_retains_iff_four_predicates
           [roulette; emptyConviction; blankRecommender]).
  repeat constructor; vm_compute; try exact I; eexists; reflexivity.
Defined.

(** ** The validation filter: order and duplicates *)

(** C8: whenever the filter returns, its output is the input with the
    candidates that fail the per-candidate test removed, hence a
    subsequence of the input in the same order; it returns on every list
    of candidates of the schema; and it compares no candidate with
    another: two candidates that each pass are both retained, also when
    they name the same ticker and contract address. *)
Theorem filter_preserves_order_without_dedup (recs : list JsValue) :
  (Forall candidateRecord recs →
   ∃ out, filteredRecommendations recs = Normal out)
  ∧ (∀ out, filteredRecommendations recs = Normal out →
       out = List.filter retained recs ∧ out `sublist_of` recs)
  ∧ (∀ a b, retained a = true → retained b = true →
       filteredRecommendations [a; b] = Normal [a; b]).
Proof.
  split; [|split].
  - intros H. eexists. by apply filteredRecommendations_records.
  - intros out Hout. apply Array_filter_Normal in Hout. subst out.
    split; [done|]. apply filter_sublist.
  - intros a b Ha Hb. apply filteredRecommendations_all_retained.
    by repeat constructor.
Qed.

Lemma filter_preserves_order_without_dedup_witness :
  (∃ out, filteredRecommendations
            [samoyedBuy; blankRecommender; samoyedDontBuy] = Normal out)
  ∧ ([samoyedBuy; samoyedDontBuy]
     = List.filter retained [samoyedBuy; blankRecommender; samoyedDontBuy]
     ∧ [samoyedBuy; samoyedDontBuy]
       `sublist_of` [samoyedBuy; blankRecommender; samoyedDontBuy])
  ∧ (field samoyedBuy ticker = field samoyedDontBuy ticker
     ∧ field samoyedBuy contractAddress = field samoyedDontBuy contractAddress
     ∧ filteredRecommendations [samoyedBuy; samoyedDontBuy]
       = Normal [samoyedBuy; samoyedDontBuy]).
Proof.
  destruct (filter_preserves_order_without_dedup
              [samoyedBuy; blankRecommender; samoyedDontBuy])
    as (Hreturns & Hsub & Hboth).
  split; [|split].
  - apply Hreturns. repeat constructor; vm_compute; try exact I;
      eexists; reflexivity.
  - apply Hsub. vm_compute. reflexivity.
  - split; [vm_compute; reflexivity|].
    split; [vm_compute; reflexivity|].
    apply Hboth; vm_compute; reflexivity.
Defined.

(** ** The validation filter and the recommendation type *)

(** C10, as it is worded, fails on the code: a candidate of the schema
    whose type is outside buy, dont_buy, sell and dont_sell and whose
    conviction is present as the empty string satisfies the four stated
    predicates, and the filter does not retain it. *)
Lemma empty_conviction_hodl_is_dropped :
  candidateRecord emptyConvictionHodl
  ∧ field emptyConvictionHodl alreadyKnown = JBoolean false
  ∧ notAlreadyKnown emptyConvictionHodl
  ∧ hasIdentifier emptyConvictionHodl
  ∧ hasRecommender emptyConvictionHodl
  ∧ hasConviction emptyConvictionHodl
  ∧ emptyConvictionHodl
    = JObject (<[js "type" := str "hodl"]>
                 (<[js "conviction" := JString []]> untyped))
  ∧ filteredRecommendations [emptyConvictionHodl] = Normal [].
Proof.
  split; [candidate_record|].
  split; [vm_compute; reflexivity|].
  split; [vm_compute; reflexivity|].
  split; [left; repeat split; vm_compute; discriminate|].
  split; [exists (js "user1"); split; vm_compute; [reflexivity|discriminate]|].
  split; [split; vm_compute; discriminate|].
  split; vm_compute; reflexivity.
Qed.

(** C10 (amended): the filter never reads the type of a candidate.  Its
    result on a candidate is the same whatever value the type property
    is set to, and the same when the property is removed; so a candidate
    of the schema that passes the four tests, with a conviction that is
    present and non-empty, is retained with any type, one outside
    buy, dont_buy, sell and dont_sell included, and with none. *)
Theorem filter_ignores_type (props : gmap JsString JsValue) (v : JsValue) :
  recommendationFilter (JObject (<[js "type" := v]> props))
  = recommendationFilter (JObject props)
  ∧ recommendationFilter (JObject (delete (js "type") props))
    = recommendationFilter (JObject props)
  ∧ (candidateRecord (JObject props) →
     notAlreadyKnown (JObject props) → hasIdentifier (JObject props) →
     hasRecommender (JObject props) →
     hasNonEmptyConviction (JObject props) →
     filteredRecommendations [JObject (<[js "type" := v]> props)]
     = Normal [JObject (<[js "type" := v]> props)]
     ∧ filteredRecommendations [JObject (delete (js "type") props)]
       = Normal [JObject (delete (js "type") props)]).
Proof.
  assert (Hins : recommendationFilter (JObject (<[js "type" := v]> props))
                 = recommendationFilter (JObject props)).
  { rewrite !recommendationFilter_object. by rewrite !field_insert_type. }
  assert (Hdel : recommendationFilter (JObject (delete (js "type") props))
                 = recommendationFilter (JObject props)).
  { rewrite !recommendationFilter_object. by rewrite !field_delete_type. }
  split; [done|]. split; [done|].
  intros Hrec H1 H2 H3 H4.
  assert (Hret : retained (JObject props) = true)
    by (by apply retained_record).
  split; apply filteredRecommendations_all_retained; repeat constructor;
    unfold retained in *; by rewrite ?Hins, ?Hdel.
Qed.

Lemma filter_ignores_type_witness :
  recommendationFilter (JObject (<[js "type" := str "hodl"]> untyped))
  = recommendationFilter (JObject untyped)
  ∧ recommendationFilter (JObject (delete (js "type") untyped))
    = recommendationFilter (JObject untyped)
  ∧ filteredRecommendations [JObject (<[js "type" := str "hodl"]> untyped)]
    = Normal [JObject (<[js "type" := str "hodl"]> untyped)]
  ∧ filteredRecommendations [JObject (delete (js "type") untyped)]
    = Normal [JObject (delete (js "type") untyped)].
Proof.
  destruct (filter_ignores_type untyped (str "hodl")) as (Hset & Hdel & Hkept).
  split; [exact Hset|]. split; [exact Hdel|].
  apply Hkept.
  - candidate_record.
  - vm_compute; reflexivity.
  - left; split; [split|]; vm_compute; discriminate.
  - exists (js "user1"); split; vm_compute; [reflexivity|discriminate].
  - split; [split|]; vm_compute; discriminate.
Defined.


(** ** The history formatter *)

Lemma formatRecommendations_run (a : Ref) (w : World) :
  formatRecommendations a w
  = (Normal (Array_join [10] (map contentString (rev (heap w !!! a)))),
     {| heap := alter (@rev Memory.t) a (heap w); calls := calls w |}).
Proof.
  unfold formatRecommendations, Array_reverse, Array_map.
  unfold mbind, mret, M_MBind, M_MRet, M_bind, M_ret.
  cbn [heap calls]. rewrite !lookup_total_alt, lookup_alter_eq.
  by destruct (heap w !! a).
Qed.

Lemma Array_join_concat (sep x : JsString) (rest : list JsString) :
  Array_join sep (x :: rest) = x ++ concat (map (app sep) rest).
Proof.
  revert x. induction rest as [|y rest IH]; intros x.
  - simpl. by rewrite app_nil_r.
  - change (Array_join sep (x :: y :: rest))
      with (x ++ sep ++ Array_join sep (y :: rest)).
    rewrite IH. simpl. by rewrite <- !app_assoc.
Qed.

Lemma contentString_texts (l : list Memory.t) (texts : list JsString) :
  map (fun rec => Content.content (Memory.content rec)) l
  = map Content.Text texts →
  map contentString l = texts.
Proof.
  revert texts. induction l as [|m l IH]; intros [|t texts]; simpl; try done.
  intros [= Hm Hl]. unfold contentString at 1. rewrite Hm.
  f_equal. by apply IH.
Qed.

(** C5: called on an array of memories whose [content.content] are the
    texts [texts], in the order of the store, the formatter returns
    those texts in reverse order with a newline between one and the
    next: for three memories of texts x, y and z it returns z, a
    newline, y, a newline, x; and for the empty array the empty string,
    without an exception.  A lone memory gives its text, or, when its
    [content.content] is not a string, that value spelled out
    (undefined when there is none). *)
Theorem formatRecommendations_reverses_maps_joins
    (h : gmap Ref (list Memory.t)) (a : Ref) (l : list Memory.t) :
  h !! a = Some l →
  (∀ texts,
     map (fun rec => Content.content (Memory.content rec)) l
     = map Content.Text texts →
     result (formatRecommendations a) h
     = Normal match rev texts with
              | [] => []
              | t :: ts => t ++ concat (map (fun s => 10 :: s) ts)
              end
     ∧ (∀ x y z, texts = [x; y; z] →
          result (formatRecommendations a) h
          = Normal (z ++ [10] ++ y ++ [10] ++ x))
     ∧ (texts = [] → result (formatRecommendations a) h = Normal []))
  ∧ (∀ m, l = [m] →
       result (formatRecommendations a) h
       = Normal match Content.content (Memory.content m) with
                | Content.Text s => s
                | Content.Undefined => js "undefined"
                | Content.Null => js "null"
                | Content.Boolean true => js "true"
                | Content.Boolean false => js "false"
                | Content.Printed printed => printed
                end).
Proof.
  intros Hl.
  assert (Hrun : result (formatRecommendations a) h
                 = Normal (Array_join [10] (map contentString (rev l)))).
  { unfold result. rewrite formatRecommendations_run. cbn [fst heap].
    by rewrite (lookup_total_correct _ _ _ Hl). }
  split.
  - intros texts Htexts. apply contentString_texts in Htexts.
    rewrite map_rev, Htexts in Hrun.
    assert (Hgen : result (formatRecommendations a) h
                   = Normal match rev texts with
                            | [] => []
                            | t :: ts => t ++ concat (map (fun s => 10 :: s) ts)
                            end).
    { rewrite Hrun. destruct (rev texts) as [|t ts]; [done|].
      by rewrite Array_join_concat. }
    split; [exact Hgen|]. split.
    + intros x y z ->. rewrite Hrun. reflexivity.
    + intros ->. rewrite Hrun. reflexivity.
  - intros m ->. rewrite Hrun. reflexivity.
Qed.

Lemma formatRecommendations_reverses_maps_joins_witness :
  (result (formatRecommendations 0%nat) {[ 0%nat := [recA; recB; recC] ]}
   = Normal (js "user1 said buy PIXELAPE"
             ++ concat (map (fun s => 10 :: s)
                          [js "user2 said sell SAMOYED";
                           js "user1 said buy ROULETTE"]))
   ∧ result (formatRecommendations 0%nat) {[ 0%nat := [recA; recB; recC] ]}
     = Normal (js "user1 said buy PIXELAPE" ++ [10]
               ++ js "user2 said sell SAMOYED" ++ [10]
               ++ js "user1 said buy ROULETTE"))
  ∧ result (formatRecommendations 0%nat) {[ 0%nat := [] ]} = Normal []
  ∧ result (formatRecommendations 0%nat) {[ 0%nat := [incoming] ]}
    = Normal (js "undefined").
Proof.
  split; [|split].
  - destruct (formatRecommendations_reverses_maps_joins
                {[ 0%nat := [recA; recB; recC] ]} 0%nat [recA; recB; recC])
      as (Htexts & _); [vm_compute; reflexivity|].
    destruct (Htexts [js "user1 said buy ROULETTE";
                      js "user2 said sell SAMOYED";
                      js "user1 said buy PIXELAPE"])
      as (Hjoin & Hxyz & _); [vm_compute; reflexivity|].
    split; [exact Hjoin|]. by apply Hxyz.
  - destruct (formatRecommendations_reverses_maps_joins
                {[ 0%nat := [] ]} 0%nat [])
      as (Htexts & _); [vm_compute; reflexivity|].
    destruct (Htexts []) as (_ & _ & Hnil); [reflexivity|].
    by apply Hnil.
  - destruct (formatRecommendations_reverses_maps_joins
                {[ 0%nat := [incoming] ]} 0%nat [incoming])
      as (_ & Hlone); [vm_compute; reflexivity|].
    exact (Hlone incoming eq_refl).
Defined.

(** The array the formatter was called on is reversed afterwards, and a
    second call on it gives the lines in the order of the original
    array. *)
Lemma formatRecommendations_in_place
    (h : gmap Ref (list Memory.t)) (a : Ref) (l : list Memory.t) :
  h !! a = Some l →
  heapAfter (formatRecommendations a) h !! a = Some (rev l)
  ∧ result (formatRecommendations a;; formatRecommendations a) h
    = Normal (Array_join [10] (map contentString l)).
Proof.
  intros Hl. unfold heapAfter, result.
  unfold mbind, M_MBind, M_bind. rewrite !formatRecommendations_run.
  cbn [fst snd heap calls].
  rewrite lookup_alter_eq, Hl. split; [done|].
  rewrite lookup_total_alt, lookup_alter_eq, Hl. simpl.
  by rewrite rev_involutive.
Qed.

(** C6 fails on the code.  The formatter is called twice on the array
    that holds [recA; recB]: the first call returns the content of recB
    and then that of recA and leaves the array as [recB; recA]; the
    second call on the same array returns the content of recA and then
    that of recB.  The two outputs differ and the caller's array has
    changed. *)
Theorem formatRecommendations_changes_its_argument :
  result (formatRecommendations 0%nat) {[ 0%nat := [recA; recB] ]}
  = Normal (contentString recB ++ [10] ++ contentString recA)
  ∧ heapAfter (formatRecommendations 0%nat) {[ 0%nat := [recA; recB] ]}
      !! 0%nat = Some [recB; recA]
  ∧ result (formatRecommendations 0%nat;; formatRecommendations 0%nat)
      {[ 0%nat := [recA; recB] ]}
    = Normal (contentString recA ++ [10] ++ contentString recB)
  ∧ contentString recB ++ [10] ++ contentString recA
    ≠ contentString recA ++ [10] ++ contentString recB.
Proof.
  split; [vm_compute; reflexivity|].
  split; [vm_compute; reflexivity|].
  split; [vm_compute; reflexivity|].
  vm_compute. discriminate.
Qed.

(** ** Applicability *)

(** C7: [validate] answers false for a text of fewer than 5 code units,
    false for a message whose userId is its agentId, and true for any
    other message. *)
Theorem validate_applicability (runtime : IAgentRuntime) (message : Memory.t)
    (h : gmap Ref (list Memory.t)) :
  ((length (Content.text (Memory.content message)) < 5)%nat →
   result (validate runtime message) h = Normal false)
  ∧ (Memory.userId message = Memory.agentId message →
     result (validate runtime message) h = Normal false)
  ∧ ((5 ≤ length (Content.text (Memory.content message)))%nat →
     Memory.userId message ≠ Memory.agentId message →
     result (validate runtime message) h = Normal true).
Proof.
  unfold result, validate, elizaLogger, request.
  unfold mbind, mret, M_MBind, M_MRet, M_bind, M_ret. cbn [fst snd].
  destruct (length (Content.text (Memory.content message)) <? 5)%nat eqn:Hlen.
  - apply Nat.ltb_lt in Hlen. repeat split; try done. intros; lia.
  - apply Nat.ltb_ge in Hlen. cbn [fst]. repeat split.
    + intros; lia.
    + intros Heq. by rewrite bool_decide_eq_true_2.
    + intros _ Hne. by rewrite bool_decide_eq_false_2.
Qed.

Lemma validate_applicability_witness :
  result (validate (runtimeWith None true None) shortText) ∅ = Normal false
  ∧ result (validate (runtimeWith None true None) ownMessage) ∅ = Normal false
  ∧ result (validate (runtimeWith None true None) incoming) ∅ = Normal true.
Proof.
  split; [|split].
  - apply (proj1 (validate_applicability
                     (runtimeWith None true None) shortText ∅)).
    vm_compute. lia.
  - apply (proj1 (proj2 (validate_applicability
                           (runtimeWith None true None) ownMessage ∅))).
    vm_compute. reflexivity.
  - apply (proj2 (proj2 (validate_applicability
                           (runtimeWith None true None) incoming ∅))).
    + vm_compute. lia.
    + vm_compute. discriminate.
Defined.

(** ** The pipeline *)

Section Pipeline.

Variable composeContext : State.t -> JsString -> JsString.
Variable shouldProcessTemplate : JsString.
Variable recommendationTemplate : JsString.
Variable runtime : IAgentRuntime.
Variable message : Memory.t.

Local Abbreviation evaluate :=
  (handler composeContext shouldProcessTemplate recommendationTemplate
     runtime message).
Local Abbreviation gate :=
  (gatePrompt composeContext shouldProcessTemplate runtime message).
Local Abbreviation extraction :=
  (extractionPrompt composeContext recommendationTemplate runtime message).

Ltac run_handler :=
  unfold handler, elizaLogger, request, liftCompletion, allocate;
  unfold mbind, mret, M_MBind, M_MRet, M_bind, M_ret; simpl.

(** The three ways through [handler]. *)

Lemma handler_skips_on_postgres (h : gmap Ref (list Memory.t)) :
  postgresConfigured runtime = true →
  evaluate {| heap := h; calls := [] |}
  = (Normal [],
     {| heap := h;
        calls :=
          [Call_elizaLogger LOG "Evaluating for trust";
           Call_composeState message;
           Call_getSetting (js "POSTGRES_URL");
           Call_elizaLogger WARN
             "skipping trust evaluator because db is postgres"] |}).
Proof.
  unfold postgresConfigured. intros Hset. run_handler.
  destruct (toBoolean (ofSetting (getSetting runtime (js "POSTGRES_URL"))));
    [reflexivity|discriminate].
Qed.

Lemma handler_skips_on_gate (h : gmap Ref (list Memory.t)) :
  postgresConfigured runtime = false →
  generateTrueOrFalse runtime gate SMALL = false →
  evaluate {| heap := h; calls := [] |}
  = (Normal [],
     {| heap := h;
        calls :=
          [Call_elizaLogger LOG "Evaluating for trust";
           Call_composeState message;
           Call_getSetting (js "POSTGRES_URL");
           Call_generateTrueOrFalse gate SMALL;
           Call_elizaLogger LOG "Skipping process"] |}).
Proof.
  unfold postgresConfigured, gatePrompt. intros Hset Hgate. run_handler.
  destruct (toBoolean (ofSetting (getSetting runtime (js "POSTGRES_URL"))));
    [discriminate|].
  simpl. by rewrite Hgate.
Qed.

Lemma handler_extracts (h : gmap Ref (list Memory.t)) :
  postgresConfigured runtime = false →
  generateTrueOrFalse runtime gate SMALL = true →
  evaluate {| heap := h; calls := [] |}
  = (match generateObjectArray runtime extraction LARGE with
     | None => Normal []
     | Some recs => filteredRecommendations recs
     end,
     {| heap := <[fresh (dom h) := rev (priorRecommendations runtime message)]> h;
        calls :=
          [Call_elizaLogger LOG "Evaluating for trust";
           Call_composeState message;
           Call_getSetting (js "POSTGRES_URL");
           Call_generateTrueOrFalse gate SMALL;
           Call_elizaLogger LOG "Processing recommendations";
           Call_getMemories (js "recommendations")
             (State.roomId (composeState runtime message)) 20;
           Call_generateObjectArray extraction LARGE;
           Call_elizaLogger LOG "recommendations"] |}).
Proof.
  unfold postgresConfigured, gatePrompt, extractionPrompt, priorRecommendations.
  intros Hset Hgate. run_handler.
  destruct (toBoolean (ofSetting (getSetting runtime (js "POSTGRES_URL"))));
    [discriminate|].
  simpl. rewrite Hgate. simpl.
  rewrite !lookup_total_alt, !lookup_alter_eq, !lookup_insert_eq,
    alter_insert_eq. simpl.
  by destruct (generateObjectArray runtime _ LARGE).
Qed.

(** C2: when the Gate answers false, [handler] returns the empty list
    and makes no request to the Extractor; when the Gate is asked and
    answers true, the run goes on to one extraction request, with the
    extraction prompt and the large model. *)
Theorem gate_false_never_extracts (h : gmap Ref (list Memory.t)) :
  (generateTrueOrFalse runtime gate SMALL = false →
   result evaluate h = Normal []
   ∧ List.filter isExtractorCall (requests evaluate h) = [])
  ∧ (postgresConfigured runtime = false →
     generateTrueOrFalse runtime gate SMALL = true →
     List.filter isExtractorCall (requests evaluate h)
     = [Call_generateObjectArray extraction LARGE]).
Proof.
  unfold result, requests. split.
  - intros Hgate. destruct (postgresConfigured runtime) eqn:Hset.
    + by rewrite handler_skips_on_postgres.
    + by rewrite handler_skips_on_gate.
  - intros Hset Hgate. by rewrite handler_extracts.
Qed.

(** C3: when the POSTGRES_URL setting is set, [handler] returns the
    empty list, whatever the message, and makes no request to the Gate
    and none to the Extractor. *)
Theorem postgres_skips_gate_and_extractor (h : gmap Ref (list Memory.t)) :
  postgresConfigured runtime = true →
  result evaluate h = Normal []
  ∧ List.filter isGateCall (requests evaluate h) = []
  ∧ List.filter isExtractorCall (requests evaluate h) = [].
Proof.
  intros Hset. unfold result, requests.
  by rewrite handler_skips_on_postgres.
Qed.

(** C4: when the run reaches extraction and the Extractor has no
    parseable result to give ([null]) or gives the empty array,
    [handler] returns the empty list, not an exception. *)
Theorem unparseable_extraction_gives_empty (h : gmap Ref (list Memory.t)) :
  postgresConfigured runtime = false →
  generateTrueOrFalse runtime gate SMALL = true →
  generateObjectArray runtime extraction LARGE = None
  ∨ generateObjectArray runtime extraction LARGE = Some [] →
  result evaluate h = Normal [].
Proof.
  intros Hset Hgate Hnone. unfold result.
  rewrite handler_extracts by done.
  by destruct Hnone as [-> | ->].
Qed.

(** C9: when the Gate answers true, the run makes one request to the
    memory store, for the table of recommendations, the room of the
    state composed for the message, and a count of 20; the request comes
    after the Gate and before the one request to the Extractor, whose
    prompt is built from the memories the store gave.  With a composer
    that keeps the room of the message, the room asked for is the
    message's. *)
Theorem store_request_is_bounded_by_20 (h : gmap Ref (list Memory.t)) :
  postgresConfigured runtime = false →
  generateTrueOrFalse runtime gate SMALL = true →
  requests evaluate h
  = [Call_elizaLogger LOG "Evaluating for trust";
     Call_composeState message;
     Call_getSetting (js "POSTGRES_URL");
     Call_generateTrueOrFalse gate SMALL;
     Call_elizaLogger LOG "Processing recommendations";
     Call_getMemories (js "recommendations")
       (State.roomId (composeState runtime message)) 20;
     Call_generateObjectArray extraction LARGE;
     Call_elizaLogger LOG "recommendations"]
  ∧ (State.roomId (composeState runtime message) = Memory.roomId message →
     List.filter isStoreCall (requests evaluate h)
     = [Call_getMemories (js "recommendations") (Memory.roomId message) 20]).
Proof.
  intros Hset Hgate. unfold requests.
  rewrite handler_extracts by done. split; [done|].
  intros Hroom. simpl. by rewrite Hroom.
Qed.

End Pipeline.

Lemma gate_false_never_extracts_witness :
  (result (handler render gateTemplate extractTemplate
             (runtimeWith None false (Some [roulette])) incoming) ∅
   = Normal []
   ∧ List.filter isExtractorCall
       (requests (handler render gateTemplate extractTemplate
                    (runtimeWith None false (Some [roulette])) incoming) ∅)
     = [])
  ∧ List.filter isExtractorCall
      (requests (handler render gateTemplate extractTemplate
                   (runtimeWith None true (Some [roulette])) incoming) ∅)
    = [Call_generateObjectArray
         (extractionPrompt render extractTemplate
            (runtimeWith None true (Some [roulette])) incoming) LARGE].
Proof.
  split.
  - apply (proj1 (gate_false_never_extracts render gateTemplate extractTemplate
                    (runtimeWith None false (Some [roulette])) incoming ∅)).
    reflexivity.
  - apply (proj2 (gate_false_never_extracts render gateTemplate extractTemplate
                    (runtimeWith None true (Some [roulette])) incoming ∅));
      reflexivity.
Defined.

Lemma postgres_skips_gate_and_extractor_witness :
  result (handler render gateTemplate extractTemplate
            (runtimeWith (Some (js "postgres://db")) true (Some [roulette]))
            incoming) ∅
  = Normal []
  ∧ List.filter isGateCall
      (requests (handler render gateTemplate extractTemplate
                   (runtimeWith (Some (js "postgres://db")) true
                      (Some [roulette])) incoming) ∅)
    = []
  ∧ List.filter isExtractorCall
      (requests (handler render gateTemplate extractTemplate
                   (runtimeWith (Some (js "postgres://db")) true
                      (Some [roulette])) incoming) ∅)
    = [].
Proof.
  apply (postgres_skips_gate_and_extractor render gateTemplate extractTemplate
           (runtimeWith (Some (js "postgres://db")) true (Some [roulette]))
           incoming ∅).
  reflexivity.
Defined.

Lemma unparseable_extraction_gives_empty_witness :
  result (handler render gateTemplate extractTemplate
            (runtimeWith None true None) incoming) ∅
  = Normal []
  ∧ result (handler render gateTemplate extractTemplate
              (runtimeWith None true (Some [])) incoming) ∅
    = Normal [].
Proof.
  split.
  - apply (unparseable_extraction_gives_empty render gateTemplate
             extractTemplate (runtimeWith None true None) incoming ∅);
      [reflexivity | reflexivity | left; reflexivity].
  - apply (unparseable_extraction_gives_empty render gateTemplate
             extractTemplate (runtimeWith None true (Some [])) incoming ∅);
      [reflexivity | reflexivity | right; reflexivity].
Defined.

Lemma store_request_is_bounded_by_20_witness :
  requests (handler render gateTemplate extractTemplate
              (runtimeWith None true (Some [roulette])) incoming) ∅
  = [Call_elizaLogger LOG "Evaluating for trust";
     Call_composeState incoming;
     Call_getSetting (js "POSTGRES_URL");
     Call_generateTrueOrFalse
       (gatePrompt render gateTemplate
          (runtimeWith None true (Some [roulette])) incoming) SMALL;
     Call_elizaLogger LOG "Processing recommendations";
     Call_getMemories (js "recommendations")
       (State.roomId
          (composeState (runtimeWith None true (Some [roulette])) incoming)) 20;
     Call_generateObjectArray
       (extractionPrompt render extractTemplate
          (runtimeWith None true (Some [roulette])) incoming) LARGE;
     Call_elizaLogger LOG "recommendations"]
  ∧ List.filter isStoreCall
      (requests (handler render gateTemplate extractTemplate
                   (runtimeWith None true (Some [roulette])) incoming) ∅)
    = [Call_getMemories (js "recommendations") (Memory.roomId incoming) 20].
Proof.
  destruct (store_request_is_bounded_by_20 render gateTemplate extractTemplate
              (runtimeWith None true (Some [roulette])) incoming ∅)
    as (Hcalls & Hroom); [reflexivity | reflexivity |].
  split; [exact Hcalls|]. apply Hroom. reflexivity.
Defined.

(** ** End-to-end scenarios *)

(** With the Gate positive and the Extractor returning the ROULETTE
    candidate, that record is the output; the extraction prompt carries
    the known recommendations oldest first. *)
Example scenario_roulette :
  result (handler render gateTemplate extractTemplate
            (runtimeWith None true (Some [roulette])) incoming) ∅
  = Normal [roulette]
  ∧ extractionPrompt render extractTemplate
      (runtimeWith None true (Some [roulette])) incoming
    = extractTemplate ++ contentString recB ++ [10] ++ contentString recA.
Proof. split; vm_compute; reflexivity. Qed.

(** The two SAMOYED candidates are both in the output. *)
Example scenario_samoyed :
  result (handler render gateTemplate extractTemplate
            (runtimeWith None true (Some [samoyedBuy; samoyedDontBuy]))
            incoming) ∅
  = Normal [samoyedBuy; samoyedDontBuy].
Proof. vm_compute; reflexivity. Qed.

(** A candidate that is [null], or whose recommender is a number, makes
    the filter throw: nothing is returned for the whole batch. *)
Example scenario_type_error :
  filteredRecommendations [roulette; JNull]
  = Throw (TypeError "Cannot read properties of null or undefined")
  ∧ filteredRecommendations
      [roulette;
       JObject (<[js "recommender" := JNumber (S754_finite false 7 0)]> untyped)]
    = Throw (TypeError "trim is not a function").
Proof. split; vm_compute; reflexivity. Qed.

(** ** Further properties of the validation filter *)

Lemma dropWhile_nil {A : Type} (p : A -> bool) (l : list A) :
  dropWhile p l = [] ↔ forallb p l = true.
Proof.
  split; [|apply dropWhile_all].
  induction l as [|x l IH]; simpl; [done|].
  destruct (p x); [exact IH|discriminate].
Qed.

Lemma dropWhile_stops {A : Type} (p : A -> bool) (l : list A) :
  forallb p (dropWhile p l) = true → dropWhile p l = [].
Proof.
  induction l as [|x l IH]; simpl; [done|].
  destruct (p x) eqn:Hx; [exact IH|].
  simpl. by rewrite Hx.
Qed.

Lemma forallb_reversed {A : Type} (p : A -> bool) (l : list A) :
  forallb p (rev l) = forallb p l.
Proof.
  induction l as [|x l IH]; simpl; [done|].
  rewrite forallb_app, IH. simpl. rewrite andb_true_r. apply andb_comm.
Qed.

(** [trim] leaves something exactly when the string has a code unit
    that is not whitespace. *)
Lemma trim_nil_iff (s : JsString) :
  trim s = [] ↔ forallb isWhiteSpace s = true.
Proof.
  split; [|apply trim_whitespace].
  unfold trim, trimEnd, trimStart. intros H.
  apply dropWhile_nil.
  assert (Hrev : dropWhile isWhiteSpace (rev (dropWhile isWhiteSpace s)) = []).
  { destruct (dropWhile isWhiteSpace (rev (dropWhile isWhiteSpace s))) as [|x l];
      [done|]. simpl in H. by destruct (rev l). }
  apply dropWhile_nil in Hrev. rewrite forallb_reversed in Hrev.
  by apply dropWhile_stops.
Qed.

Lemma trimsToText_hasText (r : JsValue) : trimsToText r = hasText r.
Proof.
  destruct r as [| | | |s| |]; simpl; try done.
  destruct (existsb (fun c => negb (isWhiteSpace c)) s) eqn:Hex.
  - apply negb_true_iff, bool_decide_eq_false. intros Htrim%trim_nil_iff.
    apply existsb_exists in Hex as (c & Hin & Hc).
    rewrite forallb_forall in Htrim. rewrite (Htrim c Hin) in Hc. done.
  - apply negb_false_iff, bool_decide_eq_true, trim_nil_iff, forallb_forall.
    intros c Hin. destruct (isWhiteSpace c) eqn:Hc; [done|].
    assert (existsb (fun c => negb (isWhiteSpace c)) s = true); [|congruence].
    apply existsb_exists. exists c. by rewrite Hc.
Qed.

(** What the callback does on the values of the five fields: it throws
    exactly when the first four tests pass on a recommender that is not
    a string, and otherwise its result is truthy exactly when all five
    tests pass. *)
Lemma filterOn_outcome (known t c r cv : JsValue) :
  match filterOn known t c r cv with
  | Normal v =>
      toBoolean v
      = negb (toBoolean known) && (toBoolean t || toBoolean c)
        && toBoolean r && toBoolean cv && hasText r
      ∧ negb (toBoolean known) && (toBoolean t || toBoolean c)
        && toBoolean r && toBoolean cv && negb (isString r) = false
  | Throw _ =>
      negb (toBoolean known) && (toBoolean t || toBoolean c)
      && toBoolean r && toBoolean cv && negb (isString r) = true
  end.
Proof.
  rewrite <- trimsToText_hasText.
  unfold filterOn, jsAnd, jsOr. simpl.
  destruct (toBoolean known) eqn:Hk; simpl; [done|].
  destruct (toBoolean t) eqn:Ht; simpl.
  - rewrite Ht. destruct (toBoolean r) eqn:Hr; simpl; [|by rewrite Hr].
    destruct (toBoolean cv) eqn:Hcv; simpl; [|by rewrite Hcv].
    destruct r; simpl in *; done.
  - destruct (toBoolean c) eqn:Hc; simpl; [|by rewrite Hc].
    destruct (toBoolean r) eqn:Hr; simpl; [|by rewrite Hr].
    destruct (toBoolean cv) eqn:Hcv; simpl; [|by rewrite Hcv].
    destruct r; simpl in *; done.
Qed.

Lemma recommendationFilter_outcome (rec : JsValue) :
  match recommendationFilter rec with
  | Normal v =>
      isNullish rec = false
      ∧ toBoolean v
        = negb (toBoolean (field rec alreadyKnown))
          && (toBoolean (field rec ticker)
              || toBoolean (field rec contractAddress))
          && toBoolean (field rec recommender)
          && toBoolean (field rec conviction)
          && hasText (field rec recommender)
      ∧ negb (toBoolean (field rec alreadyKnown))
        && (toBoolean (field rec ticker)
            || toBoolean (field rec contractAddress))
        && toBoolean (field rec recommender)
        && toBoolean (field rec conviction)
        && negb (isString (field rec recommender)) = false
  | Throw _ =>
      isNullish rec
      || negb (toBoolean (field rec alreadyKnown))
         && (toBoolean (field rec ticker)
             || toBoolean (field rec contractAddress))
         && toBoolean (field rec recommender)
         && toBoolean (field rec conviction)
         && negb (isString (field rec recommender)) = true
  end.
Proof.
  destruct rec as [| | | | | |props]; try done.
  rewrite recommendationFilter_object.
  pose proof (filterOn_outcome (field (JObject props) alreadyKnown)
                (field (JObject props) ticker)
                (field (JObject props) contractAddress)
                (field (JObject props) recommender)
                (field (JObject props) conviction)) as H.
  destruct (filterOn _ _ _ _ _); [by destruct H|exact H].
Qed.

Lemma filteredRecommendations_one (rec : JsValue) :
  filteredRecommendations [rec]
  = match recommendationFilter rec with
    | Normal v => Normal (if toBoolean v then [rec] else [])
    | Throw e => Throw e
    end.
Proof.
  unfold filteredRecommendations. simpl. unfold mbind, Completion_bind.
  by destruct (recommendationFilter rec).
Qed.

Lemma Array_filter_app (callback : JsValue -> Completion JsValue)
    (l1 l2 : list JsValue) :
  Array_filter callback (l1 ++ l2)
  = match Array_filter callback l1 with
    | Normal o1 =>
        match Array_filter callback l2 with
        | Normal o2 => Normal (o1 ++ o2)
        | Throw e => Throw e
        end
    | Throw e => Throw e
    end.
Proof.
  induction l1 as [|x l1 IH]; simpl.
  - by destruct (Array_filter callback l2).
  - unfold mbind, Completion_bind. rewrite IH.
    destruct (callback x) as [v|e]; simpl; [|done].
    destruct (Array_filter callback l1) as [o1|e]; simpl; [|done].
    destruct (Array_filter callback l2) as [o2|e]; simpl; [|done].
    by destruct (toBoolean v).
Qed.

Lemma filteredRecommendations_no_raise (recs : list JsValue) :
  Forall (fun rec => raises rec = false) recs →
  filteredRecommendations recs = Normal (List.filter retained recs).
Proof.
  intros H. unfold filteredRecommendations.
  destruct (Array_filter_returns recommendationFilter recs) as [out Hout].
  - eapply Forall_impl; [exact H|]. intros rec. unfold raises.
    destruct (recommendationFilter rec) as [v|e]; [eauto|done].
  - rewrite Hout. f_equal. by apply Array_filter_Normal.
Qed.

(** X1: on any value whatever, schema or not, the filter keeps a
    candidate exactly when the candidate is not null or undefined, its
    alreadyKnown is falsy, its ticker or its contractAddress is truthy,
    its conviction is truthy, and its recommender is a string with at
    least one code unit that is not whitespace. *)
Theorem filter_keeps_iff_five_tests (rec : JsValue) :
  filteredRecommendations [rec] = Normal [rec]
  ↔ isNullish rec = false
    ∧ toBoolean (field rec alreadyKnown) = false
    ∧ (toBoolean (field rec ticker) = true
       ∨ toBoolean (field rec contractAddress) = true)
    ∧ toBoolean (field rec conviction) = true
    ∧ hasText (field rec recommender) = true.
Proof.
  rewrite filteredRecommendations_one.
  pose proof (recommendationFilter_outcome rec) as H.
  destruct (recommendationFilter rec) as [v|e].
  - destruct H as (Hnull & Hv & _). rewrite Hv. split.
    + intros Hkept.
      destruct (negb (toBoolean (field rec alreadyKnown))
                && (toBoolean (field rec ticker)
                    || toBoolean (field rec contractAddress))
                && toBoolean (field rec recommender)
                && toBoolean (field rec conviction)
                && hasText (field rec recommender)) eqn:Hall; [|done].
      rewrite !andb_true_iff, orb_true_iff, negb_true_iff in Hall. tauto.
    + intros (_ & Hk & Hid & Hcv & Htext).
      assert (Hr : toBoolean (field rec recommender) = true).
      { destruct (field rec recommender) as [| | | |[|c s]| |]; done. }
      rewrite Hk, Hcv, Htext, Hr. simpl.
      by destruct Hid as [-> | ->]; rewrite ?orb_true_r.
  - split; [done|]. intros (Hnull & Hk & _ & _ & Htext).
    rewrite Hnull in H. simpl in H.
    destruct (field rec recommender); simpl in *; try done.
    by rewrite !andb_false_r in H.
Qed.

Lemma filter_keeps_iff_five_tests_witness :
  filteredRecommendations
    [JObject (<[js "ticker" := JNumber (S754_finite false 7 0)]> untyped)]
  = Normal
      [JObject (<[js "ticker" := JNumber (S754_finite false 7 0)]> untyped)]
  ∧ toBoolean (field blankRecommender conviction) = true
  ∧ filteredRecommendations [blankRecommender] ≠ Normal [blankRecommender].
Proof.
  split; [|split].
  - apply (proj2 (filter_keeps_iff_five_tests
                    (JObject (<[js "ticker" := JNumber (S754_finite false 7 0)]>
                                untyped)))).
    repeat split; try (vm_compute; reflexivity).
    left; vm_compute; reflexivity.
  - vm_compute; reflexivity.
  - intros H.
    apply (proj1 (filter_keeps_iff_five_tests blankRecommender)) in H.
    destruct H as (_ & _ & _ & _ & H). vm_compute in H. discriminate.
Defined.

(** X2: the callback of the filter throws exactly on a candidate that is
    null or undefined, and on one whose alreadyKnown is falsy, whose
    ticker or contractAddress is truthy, whose conviction is truthy and
    whose recommender is truthy without being a string.  A candidate
    that fails an earlier test is dropped without the recommender being
    trimmed. *)
Theorem filter_throws_iff (rec : JsValue) :
  (∃ e, recommendationFilter rec = Throw e)
  ↔ isNullish rec = true
    ∨ (toBoolean (field rec alreadyKnown) = false
       ∧ (toBoolean (field rec ticker) = true
          ∨ toBoolean (field rec contractAddress) = true)
       ∧ toBoolean (field rec conviction) = true
       ∧ toBoolean (field rec recommender) = true
       ∧ isString (field rec recommender) = false).
Proof.
  pose proof (recommendationFilter_outcome rec) as H.
  destruct (recommendationFilter rec) as [v|e].
  - destruct H as (Hnull & _ & Hno). split; [by intros [e ?]|].
    intros [Hn | (Hk & Hid & Hcv & Hr & Hs)]; [congruence|].
    rewrite Hk, Hcv, Hr, Hs in Hno. simpl in Hno.
    destruct Hid as [Ht | Hc]; rewrite ?Ht, ?Hc, ?orb_true_r in Hno; done.
  - split; [|by eauto]. intros _.
    apply orb_true_iff in H as [Hn | H]; [by left|right].
    rewrite !andb_true_iff, orb_true_iff, !negb_true_iff in H. tauto.
Qed.

Lemma filter_throws_iff_witness :
  (∃ e, recommendationFilter numericRecommender = Throw e)
  ∧ ¬ (∃ e, recommendationFilter knownNumericRecommender = Throw e).
Proof.
  split.
  - apply (proj2 (filter_throws_iff numericRecommender)).
    right. repeat split; try (vm_compute; reflexivity).
    left; vm_compute; reflexivity.
  - intros H. apply (proj1 (filter_throws_iff knownNumericRecommender)) in H.
    destruct H as [H | (H & _)]; vm_compute in H; discriminate.
Defined.

(** X3: filtering is all or nothing.  When no candidate of the batch
    makes the callback throw, the filter returns the candidates that
    pass; when one does, the filter throws the error of the first such
    candidate, and the valid candidates before and after it are lost
    with it. *)
Theorem filter_is_all_or_nothing (recs : list JsValue) :
  (Forall (fun rec => raises rec = false) recs →
   filteredRecommendations recs = Normal (List.filter retained recs))
  ∧ (∀ pre rec post e,
       recs = pre ++ rec :: post →
       Forall (fun rec => raises rec = false) pre →
       recommendationFilter rec = Throw e →
       filteredRecommendations recs = Throw e).
Proof.
  split; [apply filteredRecommendations_no_raise|].
  intros pre rec post e -> Hpre Hrec.
  unfold filteredRecommendations. rewrite Array_filter_app.
  fold (filteredRecommendations pre).
  rewrite (filteredRecommendations_no_raise pre Hpre). simpl.
  unfold mbind, Completion_bind. by rewrite Hrec.
Qed.

Lemma filter_is_all_or_nothing_witness :
  filteredRecommendations [roulette; blankRecommender; samoyedBuy]
  = Normal (List.filter retained [roulette; blankRecommender; samoyedBuy])
  ∧ filteredRecommendations [roulette; numericRecommender; samoyedBuy]
    = Throw (TypeError "trim is not a function").
Proof.
  split.
  - apply (proj1 (filter_is_all_or_nothing
                    [roulette; blankRecommender; samoyedBuy])).
    repeat constructor; vm_compute; reflexivity.
  - apply (proj2 (filter_is_all_or_nothing
                    [roulette; numericRecommender; samoyedBuy])
             [roulette] numericRecommender [samoyedBuy]).
    + reflexivity.
    + repeat constructor; vm_compute; reflexivity.
    + vm_compute; reflexivity.
Defined.

(** X4: filtering is idempotent: when the filter returns, filtering its
    output again returns that output unchanged. *)
Theorem filter_is_idempotent (recs out : list JsValue) :
  filteredRecommendations recs = Normal out →
  filteredRecommendations out = Normal out.
Proof.
  intros Hout. apply Array_filter_Normal in Hout. subst out.
  apply filteredRecommendations_all_retained.
  apply Forall_forall. intros rec Hin.
  apply list_elem_of_In, filter_In in Hin as [_ Hrec]. exact Hrec.
Qed.

Lemma filter_is_idempotent_witness :
  filteredRecommendations [roulette; samoyedBuy]
  = Normal [roulette; samoyedBuy].
Proof.
  apply (filter_is_idempotent
           [roulette; blankRecommender; emptyConviction; samoyedBuy]
           [roulette; samoyedBuy]).
  vm_compute; reflexivity.
Defined.

(** X5: filtering a batch made of two parts is filtering each part: when
    both parts return, the whole returns the two outputs one after the
    other; when the first part throws, or the first returns and the
    second throws, the whole throws that error. *)
Theorem filter_distributes_over_append (l1 l2 : list JsValue) :
  (∀ o1 o2, filteredRecommendations l1 = Normal o1 →
     filteredRecommendations l2 = Normal o2 →
     filteredRecommendations (l1 ++ l2) = Normal (o1 ++ o2))
  ∧ (∀ e, filteredRecommendations l1 = Throw e →
       filteredRecommendations (l1 ++ l2) = Throw e)
  ∧ (∀ o1 e, filteredRecommendations l1 = Normal o1 →
       filteredRecommendations l2 = Throw e →
       filteredRecommendations (l1 ++ l2) = Throw e).
Proof.
  unfold filteredRecommendations. rewrite Array_filter_app.
  split; [|split].
  - by intros o1 o2 -> ->.
  - by intros e ->.
  - by intros o1 e -> ->.
Qed.

Lemma filter_distributes_over_append_witness :
  filteredRecommendations ([roulette; blankRecommender] ++ [samoyedBuy])
  = Normal ([roulette] ++ [samoyedBuy])
  ∧ filteredRecommendations ([JNull] ++ [samoyedBuy])
    = Throw (TypeError "Cannot read properties of null or undefined")
  ∧ filteredRecommendations ([roulette] ++ [numericRecommender])
    = Throw (TypeError "trim is not a function").
Proof.
  split; [|split].
  - apply (proj1 (filter_distributes_over_append
                    [roulette; blankRecommender] [samoyedBuy]));
      vm_compute; reflexivity.
  - apply (proj1 (proj2 (filter_distributes_over_append
                           [JNull] [samoyedBuy]))).
    vm_compute; reflexivity.
  - apply (proj2 (proj2 (filter_distributes_over_append
                           [roulette] [numericRecommender])) [roulette]);
      vm_compute; reflexivity.
Defined.

(** ** Further properties of the history formatter *)

Lemma alter_rev_insert (h : gmap Ref (list Memory.t)) (a : Ref)
    (l : list Memory.t) :
  h !! a = Some l → alter (@rev Memory.t) a h = <[a := rev l]> h.
Proof.
  intros Hl. apply map_eq. intros b. destruct (decide (a = b)) as [<-|Hne].
  - by rewrite lookup_alter_eq, lookup_insert_eq, Hl.
  - by rewrite lookup_alter_ne, lookup_insert_ne.
Qed.

Lemma Array_join_app (sep : JsString) (l1 l2 : list JsString) :
  l1 ≠ [] → l2 ≠ [] →
  Array_join sep (l1 ++ l2) = Array_join sep l1 ++ sep ++ Array_join sep l2.
Proof.
  intros H1 H2. induction l1 as [|x [|y l1] IH]; [done| |].
  - simpl. by destruct l2.
  - change (Array_join sep ((x :: y :: l1) ++ l2))
      with (x ++ sep ++ Array_join sep ((y :: l1) ++ l2)).
    rewrite IH by done.
    change (Array_join sep (x :: y :: l1))
      with (x ++ sep ++ Array_join sep (y :: l1)).
    by rewrite <- !app_assoc.
Qed.

Lemma Array_join_length (sep : JsString) (l : list JsString) :
  length (Array_join sep l)
  = (list_sum (map (@length N) l) + length sep * (length l - 1))%nat.
Proof.
  induction l as [|x [|y l] IH]; [simpl; lia| |].
  - simpl. lia.
  - change (Array_join sep (x :: y :: l))
      with (x ++ sep ++ Array_join sep (y :: l)).
    rewrite !length_app, IH. simpl. lia.
Qed.

(** X6: a call of the formatter changes nothing but the array it is
    given: afterwards that array holds its elements in reverse order,
    every other array is as before, and no request was made to a
    collaborator.  A second call on the same array puts the heap back as
    it was. *)
Theorem formatRecommendations_frame
    (h : gmap Ref (list Memory.t)) (a : Ref) (l : list Memory.t) :
  h !! a = Some l →
  heapAfter (formatRecommendations a) h = <[a := rev l]> h
  ∧ requests (formatRecommendations a) h = []
  ∧ heapAfter (formatRecommendations a;; formatRecommendations a) h = h.
Proof.
  intros Hl. unfold heapAfter, requests.
  unfold mbind, M_MBind, M_bind. rewrite !formatRecommendations_run.
  cbn [fst snd heap calls].
  rewrite (alter_rev_insert h a l Hl).
  split; [done|]. split; [done|].
  rewrite (alter_rev_insert _ a (rev l)) by apply lookup_insert_eq.
  rewrite rev_involutive, insert_insert_eq. by apply insert_id.
Qed.

Lemma formatRecommendations_frame_witness :
  heapAfter (formatRecommendations 0%nat)
    {[ 0%nat := [recA; recB]; 1%nat := [recC; recA] ]}
  = <[ 0%nat := rev [recA; recB] ]>
      {[ 0%nat := [recA; recB]; 1%nat := [recC; recA] ]}
  ∧ requests (formatRecommendations 0%nat)
      {[ 0%nat := [recA; recB]; 1%nat := [recC; recA] ]}
    = []
  ∧ heapAfter (formatRecommendations 0%nat;; formatRecommendations 0%nat)
      {[ 0%nat := [recA; recB]; 1%nat := [recC; recA] ]}
    = {[ 0%nat := [recA; recB]; 1%nat := [recC; recA] ]}.
Proof.
  apply (formatRecommendations_frame
           {[ 0%nat := [recA; recB]; 1%nat := [recC; recA] ]}
           0%nat [recA; recB]).
  vm_compute; reflexivity.
Defined.

(** X7: the narrative of an array made of a newer part followed by an
    older part, neither empty, is the narrative of the older part, a
    newline, and the narrative of the newer part. *)
Theorem formatRecommendations_append
    (h : gmap Ref (list Memory.t)) (a : Ref) (newer older : list Memory.t)
    (x y : JsString) :
  newer ≠ [] → older ≠ [] →
  result (formatRecommendations a) (<[a := newer]> h) = Normal x →
  result (formatRecommendations a) (<[a := older]> h) = Normal y →
  result (formatRecommendations a) (<[a := newer ++ older]> h)
  = Normal (y ++ [10] ++ x).
Proof.
  intros Hn Ho. unfold result. rewrite !formatRecommendations_run.
  cbn [fst heap]. rewrite !lookup_total_insert_eq.
  intros [= <-] [= <-]. f_equal.
  rewrite rev_app_distr, map_app. apply Array_join_app.
  - destruct older as [|m older]; [done|]. simpl.
    rewrite map_app. by destruct (map contentString (rev older)).
  - destruct newer as [|m newer]; [done|]. simpl.
    rewrite map_app. by destruct (map contentString (rev newer)).
Qed.

Lemma formatRecommendations_append_witness :
  result (formatRecommendations 0%nat) (<[ 0%nat := [recA; recB] ++ [recC] ]> ∅)
  = Normal (contentString recC ++ [10]
            ++ (contentString recB ++ [10] ++ contentString recA)).
Proof.
  apply (formatRecommendations_append ∅ 0%nat [recA; recB] [recC]
           (contentString recB ++ [10] ++ contentString recA)
           (contentString recC)); try done; vm_compute; reflexivity.
Defined.

(** X8: the narrative has one newline between consecutive elements and
    none at the end: its length is the sum of the lengths of the content
    strings plus the number of elements less one (nothing is added for
    the empty array). *)
Theorem formatRecommendations_length
    (h : gmap Ref (list Memory.t)) (a : Ref) (l : list Memory.t) :
  h !! a = Some l →
  ∃ out,
    result (formatRecommendations a) h = Normal out
    ∧ length out
      = (list_sum (map (fun rec => length (contentString rec)) l)
         + (length l - 1))%nat.
Proof.
  intros Hl. unfold result. rewrite formatRecommendations_run.
  cbn [fst heap]. rewrite (lookup_total_correct _ _ _ Hl).
  eexists. split; [done|].
  rewrite Array_join_length, length_map, length_rev, map_map.
  simpl. rewrite Nat.add_0_r. f_equal.
  clear Hl. induction l as [|m l IH]; [done|].
  simpl. rewrite map_app, list_sum_app, IH. simpl. lia.
Qed.

Lemma formatRecommendations_length_witness :
  ∃ out,
    result (formatRecommendations 0%nat) {[ 0%nat := [recA; recB] ]}
    = Normal out
    ∧ length out
      = (list_sum (map (fun rec => length (contentString rec)) [recA; recB])
         + (length [recA; recB] - 1))%nat.
Proof.
  apply (formatRecommendations_length {[ 0%nat := [recA; recB] ]} 0%nat).
  vm_compute; reflexivity.
Defined.

(** ** Further properties of the pipeline *)

Section PipelineInvariants.

Variable composeContext : State.t -> JsString -> JsString.
Variable shouldProcessTemplate : JsString.
Variable recommendationTemplate : JsString.
Variable runtime : IAgentRuntime.
Variable message : Memory.t.

Local Abbreviation evaluate :=
  (handler composeContext shouldProcessTemplate recommendationTemplate
     runtime message).
Local Abbreviation gate :=
  (gatePrompt composeContext shouldProcessTemplate runtime message).
Local Abbreviation extraction :=
  (extractionPrompt composeContext recommendationTemplate runtime message).

(** The run of [handler], by cases on the flag and on the Gate. *)
Ltac by_path h :=
  destruct (postgresConfigured runtime) eqn:Hset;
  [ rewrite (handler_skips_on_postgres composeContext shouldProcessTemplate
               recommendationTemplate runtime message h Hset)
  | destruct (generateTrueOrFalse runtime gate SMALL) eqn:Hgate;
    [ rewrite (handler_extracts composeContext shouldProcessTemplate
                 recommendationTemplate runtime message h Hset Hgate)
    | rewrite (handler_skips_on_gate composeContext shouldProcessTemplate
                 recommendationTemplate runtime message h Hset Hgate) ] ].

(** X10: in every run, the one that the POSTGRES_URL setting skips
    included, [handler] first has the state composed for the message and
    then reads the setting; each of the two is requested once. *)
Theorem handler_composes_state_before_flag (h : gmap Ref (list Memory.t)) :
  ∃ rest,
    requests evaluate h
    = [Call_elizaLogger LOG "Evaluating for trust";
       Call_composeState message;
       Call_getSetting (js "POSTGRES_URL")] ++ rest
    ∧ List.filter isComposeCall rest = []
    ∧ List.filter isSettingCall rest = [].
Proof.
  unfold requests. by_path h; cbn [snd calls]; eexists; by repeat split.
Qed.

(** X11: there is no retry: in every run [handler] asks the Gate at most
    once, the store at most as often as the Gate, and the Extractor at
    most as often as the store. *)
Theorem handler_requests_at_most_once (h : gmap Ref (list Memory.t)) :
  (length (List.filter isExtractorCall (requests evaluate h))
   ≤ length (List.filter isStoreCall (requests evaluate h)))%nat
  ∧ (length (List.filter isStoreCall (requests evaluate h))
     ≤ length (List.filter isGateCall (requests evaluate h)))%nat
  ∧ (length (List.filter isGateCall (requests evaluate h)) ≤ 1)%nat.
Proof.
  unfold requests. by_path h; cbn [snd calls]; simpl; lia.
Qed.

(** X12: [handler] uses the message only to have the state composed: two
    messages for which the composer gives the same state lead to the
    same result, the same heap and, the composer's apart, the same
    requests.  [handler] does not test the length of the text nor the
    author: that is left to [validate]. *)
Theorem handler_reads_message_through_state
    (m1 m2 : Memory.t) (h : gmap Ref (list Memory.t)) :
  composeState runtime m1 = composeState runtime m2 →
  result (handler composeContext shouldProcessTemplate recommendationTemplate
            runtime m1) h
  = result (handler composeContext shouldProcessTemplate recommendationTemplate
              runtime m2) h
  ∧ heapAfter (handler composeContext shouldProcessTemplate
                 recommendationTemplate runtime m1) h
    = heapAfter (handler composeContext shouldProcessTemplate
                   recommendationTemplate runtime m2) h
  ∧ List.filter (fun e => negb (isComposeCall e))
      (requests (handler composeContext shouldProcessTemplate
                   recommendationTemplate runtime m1) h)
    = List.filter (fun e => negb (isComposeCall e))
        (requests (handler composeContext shouldProcessTemplate
                     recommendationTemplate runtime m2) h).
Proof.
  intros Hstate.
  assert (Hg : gatePrompt composeContext shouldProcessTemplate runtime m1
               = gatePrompt composeContext shouldProcessTemplate runtime m2)
    by (unfold gatePrompt; by rewrite Hstate).
  assert (Hp : priorRecommendations runtime m1 = priorRecommendations runtime m2)
    by (unfold priorRecommendations; by rewrite Hstate).
  assert (He : extractionPrompt composeContext recommendationTemplate runtime m1
               = extractionPrompt composeContext recommendationTemplate
                   runtime m2)
    by (unfold extractionPrompt; by rewrite Hstate, Hp).
  unfold result, heapAfter, requests.
  destruct (postgresConfigured runtime) eqn:Hset.
  - by rewrite !handler_skips_on_postgres.
  - destruct (generateTrueOrFalse runtime
                (gatePrompt composeContext shouldProcessTemplate runtime m1)
                SMALL) eqn:Hgate.
    + rewrite (handler_extracts _ _ _ _ m1) by done.
      rewrite (handler_extracts _ _ _ _ m2) by (by rewrite <- ?Hg).
      cbn [fst snd heap calls]. by rewrite Hg, He, Hp, Hstate.
    + rewrite (handler_skips_on_gate _ _ _ _ m1) by done.
      rewrite (handler_skips_on_gate _ _ _ _ m2) by (by rewrite <- ?Hg).
      cbn [fst snd heap calls]. by rewrite Hg.
Qed.

(** X13: a list that [handler] returns comes from the Extractor: it is
    empty, or the flag was unset, the Gate said yes, and the list is the
    Extractor's array with the candidates that fail the filter removed,
    the others in their order. *)
Theorem handler_output_comes_from_extractor
    (h : gmap Ref (list Memory.t)) (out : list JsValue) :
  result evaluate h = Normal out →
  out = []
  ∨ (postgresConfigured runtime = false
     ∧ generateTrueOrFalse runtime gate SMALL = true
     ∧ ∃ recs,
         generateObjectArray runtime extraction LARGE = Some recs
         ∧ out = List.filter retained recs
         ∧ out `sublist_of` recs).
Proof.
  unfold result. by_path h; cbn [fst]; try (intros [= <-]; by left).
  destruct (generateObjectArray runtime extraction LARGE) as [recs|] eqn:Hrecs;
    [|intros [= <-]; by left].
  intros Hout. right. repeat split; try done. exists recs. split; [done|].
  apply Array_filter_Normal in Hout. subst out.
  split; [done|apply filter_sublist].
Qed.

(** X14: a POSTGRES_URL that is set to the empty string does not skip
    the pipeline: the Gate is asked as when the setting is absent. *)
Theorem empty_postgres_url_does_not_skip (h : gmap Ref (list Memory.t)) :
  getSetting runtime (js "POSTGRES_URL") = Some []
  ∨ getSetting runtime (js "POSTGRES_URL") = None →
  List.filter isGateCall (requests evaluate h)
  = [Call_generateTrueOrFalse gate SMALL].
Proof.
  intros Hempty.
  assert (Hset : postgresConfigured runtime = false)
    by (unfold postgresConfigured; by destruct Hempty as [-> | ->]).
  unfold requests.
  destruct (generateTrueOrFalse runtime gate SMALL) eqn:Hgate;
    [rewrite handler_extracts by done | rewrite handler_skips_on_gate by done];
    by cbn [snd calls].
Qed.

End PipelineInvariants.

Lemma handler_reads_message_through_state_witness :
  result (validate (runtimeWith None true (Some [roulette])) shortText) ∅
  = Normal false
  ∧ result (handler render gateTemplate extractTemplate
              (runtimeWith None true (Some [roulette])) shortText) ∅
    = result (handler render gateTemplate extractTemplate
                (runtimeWith None true (Some [roulette])) incoming) ∅
  ∧ result (handler render gateTemplate extractTemplate
              (runtimeWith None true (Some [roulette])) shortText) ∅
    = Normal [roulette].
Proof.
  split; [vm_compute; reflexivity|].
  split; [|vm_compute; reflexivity].
  apply (handler_reads_message_through_state render gateTemplate
           extractTemplate (runtimeWith None true (Some [roulette]))
           shortText incoming ∅).
  reflexivity.
Defined.

Lemma empty_postgres_url_does_not_skip_witness :
  List.filter isGateCall
    (requests (handler render gateTemplate extractTemplate
                 (runtimeWith (Some []) true (Some [roulette])) incoming) ∅)
  = [Call_generateTrueOrFalse
       (gatePrompt render gateTemplate
          (runtimeWith (Some []) true (Some [roulette])) incoming) SMALL].
Proof.
  apply (empty_postgres_url_does_not_skip render gateTemplate extractTemplate
           (runtimeWith (Some []) true (Some [roulette])) incoming ∅).
  left; reflexivity.
Defined.

Lemma handler_output_comes_from_extractor_witness :
  [roulette] = []
  ∨ (postgresConfigured
       (runtimeWith None true (Some [blankRecommender; roulette])) = false
     ∧ generateTrueOrFalse
         (runtimeWith None true (Some [blankRecommender; roulette]))
         (gatePrompt render gateTemplate
            (runtimeWith None true (Some [blankRecommender; roulette]))
            incoming) SMALL
       = true
     ∧ ∃ recs,
         generateObjectArray
           (runtimeWith None true (Some [blankRecommender; roulette]))
           (extractionPrompt render extractTemplate
              (runtimeWith None true (Some [blankRecommender; roulette]))
              incoming) LARGE
         = Some recs
         ∧ [roulette] = List.filter retained recs
         ∧ [roulette] `sublist_of` recs).
Proof.
  apply (handler_output_comes_from_extractor render gateTemplate
           extractTemplate
           (runtimeWith None true (Some [blankRecommender; roulette]))
           incoming ∅ [roulette]).
  vm_compute; reflexivity.
Defined.
